(** * kiara: the version resolution engine of [src/tasks/version.ts]

    A shallow embedding of the version task of kiara (commit
    classification, semantic-version increment, manual candidate list and
    the two resolution pipelines), followed by the properties its
    specification states about it.

    JavaScript values are modelled as follows.
    - A value of TypeScript type [string | null] is an [option string],
      [None] being [null]: the casts [x as string] of the source do nothing
      at run time, so a value declared [string] may still be [null].
    - Counters are natural numbers ([N]): the source only ever adds to
      them, far below 2^53.
    - A settled [Promise] is [Resolved v] or [Rejected r]; a neverthrow
      [ResultAsync] is the [Result] it settles to.
    - The logger calls ([logger.info], [logger.verbose], [console.log])
      under [andTee] write to the terminal and leave the result unchanged;
      only their pass-through is modelled. *)

From Stdlib Require Import NArith Ascii String List Lia.
From Stdlib Require Import DecimalString DecimalFacts DecimalPos DecimalN.
From stdpp Require Import base option list strings gmap.

Local Open Scope string_scope.
Local Open Scope N_scope.
Local Open Scope list_scope.

(** ** JavaScript run-time model *)

Module JS.

(** An [Error] object: its [name] (the class) and its [message]. *)
Record Error := mkError { name : string; message : string }.

(** [new Error(msg)] *)
Definition new_Error (msg : string) : Error :=
  {| name := "Error"; message := msg |}.

(** What a promise rejects with (or what a [throw] throws): an [Error]
    object, or any other value, kept as the text [String(value)]. *)
Inductive Reason :=
| Thrown (e : Error)
| Other (text : string).

(** [`${error}`]: [Error.prototype.toString] for an [Error]. *)
Definition to_string (r : Reason) : string :=
  match r with
  | Thrown e =>
      if String.eqb (name e) "" then message e
      else if String.eqb (message e) "" then name e
      else name e +:+ ": " +:+ message e
  | Other text => text
  end.

(** [`${n}`] for a non-negative integer below 2^53: its decimal digits. *)
Definition Number_toString (n : N) : string :=
  NilEmpty.string_of_uint (N.to_uint n).

(** [`${v}`] for a value of type [string | null]. *)
Definition template (v : option string) : string :=
  match v with Some s => s | None => "null" end.

(** A settled promise. *)
Inductive Promise (A : Type) :=
| Resolved (a : A)
| Rejected (r : Reason).
Arguments Resolved {A} a.
Arguments Rejected {A} r.

(** [Promise.resolve(v)] for a [v] that is not itself a promise. *)
Definition Promise_resolve {A} (v : A) : Promise A := Resolved v.

End JS.

(** ** neverthrow *)

Inductive Result (T E : Type) :=
| Ok (value : T)
| Err (error : E).
Arguments Ok {T E} value.
Arguments Err {T E} error.

Module ResultAsync.

(** [ResultAsync.fromPromise(promise, errorFn)] *)
Definition fromPromise {T E} (p : JS.Promise T) (errorFn : JS.Reason -> E)
  : Result T E :=
  match p with
  | JS.Resolved v => Ok v
  | JS.Rejected r => Err (errorFn r)
  end.

(** [.map(f)] *)
Definition map {T U E} (f : T -> U) (r : Result T E) : Result U E :=
  match r with Ok v => Ok (f v) | Err e => Err e end.

(** [.andThen(f)] *)
Definition andThen {T U E} (f : T -> Result U E) (r : Result T E)
  : Result U E :=
  match r with Ok v => f v | Err e => Err e end.

(** [.andTee(f)]: runs [f] for its effect and passes the result on. *)
Definition andTee {T E} (r : Result T E) : Result T E := r.

End ResultAsync.

Definition is_ok {T E} (r : Result T E) : bool :=
  match r with Ok _ => true | Err _ => false end.

(** ** The [semver] package *)

(** The release types the engine works with: the entries of
    [RELEASE_TYPES] and the tokens a recommendation is mapped to. *)
Inductive ReleaseType := patch | minor | major.

(** The text of a release type, as it appears in a template string. *)
Definition token (t : ReleaseType) : string :=
  match t with patch => "patch" | minor => "minor" | major => "major" end.

Module semver.

Definition MAX_LENGTH : nat := 256.
Definition MAX_SAFE_INTEGER : N := 9007199254740991.

(** A parsed version. Pre-release and build identifiers are kept as
    text. *)
Record SemVer := mkSemVer {
  sv_major : N;
  sv_minor : N;
  sv_patch : N;
  prerelease : list string;
  build : list string
}.

(** *** Characters and splitting *)

Definition is_digit (c : ascii) : bool :=
  let n := N_of_ascii c in (48 <=? n) && (n <=? 57).

Definition is_letter (c : ascii) : bool :=
  let n := N_of_ascii c in
  ((65 <=? n) && (n <=? 90)) || ((97 <=? n) && (n <=? 122)).

(** A letter, a digit or a hyphen. *)
Definition is_letterdashnumber (c : ascii) : bool :=
  is_digit c || is_letter c || Ascii.eqb c "-".

(** The ASCII white space [String.prototype.trim] strips. *)
Definition is_space (c : ascii) : bool :=
  let n := N_of_ascii c in ((9 <=? n) && (n <=? 13)) || (n =? 32).

Fixpoint all_chars (p : ascii -> bool) (s : string) : bool :=
  match s with
  | EmptyString => true
  | String c r => p c && all_chars p r
  end.

Fixpoint trim_start (s : string) : string :=
  match s with
  | String c r => if is_space c then trim_start r else s
  | EmptyString => EmptyString
  end.

Fixpoint trim_end (s : string) : string :=
  match s with
  | EmptyString => EmptyString
  | String c r =>
      match trim_end r with
      | EmptyString => if is_space c then EmptyString else String c EmptyString
      | r' => String c r'
      end
  end.

(** [s.trim()] *)
Definition trim (s : string) : string := trim_end (trim_start s).

(** [s.split(sep)] for a one-character separator: never empty. *)
Fixpoint split (sep : ascii) (s : string) : list string :=
  match s with
  | EmptyString => [EmptyString]
  | String c r =>
      if Ascii.eqb c sep then EmptyString :: split sep r
      else match split sep r with
           | x :: xs => String c x :: xs
           | [] => [String c EmptyString]
           end
  end.

(** [xs.join(sep)] *)
Fixpoint join (sep : string) (xs : list string) : string :=
  match xs with
  | [] => ""
  | [x] => x
  | x :: rest => x +:+ sep +:+ join sep rest
  end.

(** The text before the first [sep], and the text after it when there is
    one. *)
Fixpoint cut (sep : ascii) (s : string) : string * option string :=
  match s with
  | EmptyString => (EmptyString, None)
  | String c r =>
      if Ascii.eqb c sep then (EmptyString, Some r)
      else let '(a, b) := cut sep r in (String c a, b)
  end.

(** *** The grammar of a version (the package's strict pattern)

    An optional [v], three numeric identifiers separated by dots, then
    optionally [-] and dot-separated pre-release identifiers, then
    optionally [+] and dot-separated build identifiers. A numeric
    identifier is [0] or digits that do not start with [0]; a pre-release
    identifier is a numeric identifier or letters, digits and hyphens
    with at least one non-digit; a build identifier is one or more
    letters, digits and hyphens. *)

(** A numeric identifier. *)
Definition is_numeric_identifier (s : string) : bool :=
  match s with
  | EmptyString => false
  | String c r =>
      all_chars is_digit s
      && (negb (Ascii.eqb c "0") || String.eqb r "")
  end.

(** [+s] for a numeric identifier [s]. *)
Definition to_number (s : string) : option N :=
  if is_numeric_identifier s then
    match NilEmpty.uint_of_string s with
    | Some d => Some (N.of_uint d)
    | None => None
    end
  else None.

(** A pre-release identifier. *)
Definition is_prerelease_identifier (s : string) : bool :=
  is_numeric_identifier s
  || (all_chars is_letterdashnumber s && negb (all_chars is_digit s)).

(** A build identifier. *)
Definition is_build_identifier (s : string) : bool :=
  negb (String.eqb s "") && all_chars is_letterdashnumber s.

Definition identifiers (ok : string -> bool) (part : option string)
  : option (list string) :=
  match part with
  | None => Some []
  | Some text =>
      let ids := split "." text in
      if forallb ok ids then Some ids else None
  end.

(** A component above [MAX_SAFE_INTEGER] is refused. *)
Definition component (s : string) : option N :=
  match to_number s with
  | Some n => if n <=? MAX_SAFE_INTEGER then Some n else None
  | None => None
  end.

(** The optional leading [v]. *)
Definition strip_v (s : string) : string :=
  match s with
  | String "v" r => r
  | _ => s
  end.

(** [new SemVer(version)]: [None] where the constructor throws. *)
Definition parse (version : string) : option SemVer :=
  if (MAX_LENGTH <? String.length version)%nat then None
  else
    let s := strip_v (trim version) in
    let '(front, build_part) := cut "+" s in
    let '(main, pre_part) := cut "-" front in
    match split "." main with
    | [a; b; c] =>
        match component a, component b, component c,
              identifiers is_prerelease_identifier pre_part,
              identifiers is_build_identifier build_part with
        | Some ma, Some mi, Some pa, Some pre, Some bld =>
            Some (mkSemVer ma mi pa pre bld)
        | _, _, _, _, _ => None
        end
    | _ => None
    end.

(** [SemVer.prototype.format]: the [version] property. Build metadata is
    not part of it. *)
Definition format (v : SemVer) : string :=
  JS.Number_toString (sv_major v) +:+ "." +:+
  JS.Number_toString (sv_minor v) +:+ "." +:+
  JS.Number_toString (sv_patch v) +:+
  match prerelease v with
  | [] => ""
  | pre => "-" +:+ join "." pre
  end.

Definition is_empty {A} (l : list A) : bool :=
  match l with [] => true | _ => false end.

(** [SemVer.prototype.inc(release)] for the three plain release types. A
    pre-release of the target version is promoted to it without a
    further increment. *)
Definition SemVer_inc (v : SemVer) (release : ReleaseType) : SemVer :=
  match release with
  | major =>
      let bump := negb (sv_minor v =? 0) || negb (sv_patch v =? 0)
                  || is_empty (prerelease v) in
      mkSemVer (if bump then sv_major v + 1 else sv_major v) 0 0 [] (build v)
  | minor =>
      let bump := negb (sv_patch v =? 0) || is_empty (prerelease v) in
      mkSemVer (sv_major v) (if bump then sv_minor v + 1 else sv_minor v)
               0 [] (build v)
  | patch =>
      let bump := is_empty (prerelease v) in
      mkSemVer (sv_major v) (sv_minor v)
               (if bump then sv_patch v + 1 else sv_patch v) [] (build v)
  end.

(** Modelled from the spec: [semver.inc] of the [semver] package
    (a dependency in [package.json], not part of the sources). The
    increment rules are those of the specification's Version Calculator:
    [major] resets minor and patch and increments major, [minor] resets
    patch and increments minor, [patch] increments patch, and pre-release
    and build suffixes are dropped; a current version that is not
    syntactically valid gives no version ([null]). Where the
    specification defers to the package (the accepted syntax, the
    promotion of a pre-release), the model follows the package:
    [semver.inc] builds a [SemVer], increments it and returns its
    [version], and returns [null] when any of this throws. Strings are
    ASCII. *)
Definition inc (version : string) (release : ReleaseType) : option string :=
  match parse version with
  | Some v => Some (format (SemVer_inc v release))
  | None => None
  end.

(** [semver.valid]: the normalised version, or [null]. *)
Definition valid (version : string) : option string :=
  match parse version with
  | Some v => Some (format v)
  | None => None
  end.

End semver.

(** ** Data of [version.ts] *)

Definition RELEASE_TYPES : list ReleaseType := [patch; minor; major].

(** [CHOICES.default], a copy of [RELEASE_TYPES]. *)
Definition CHOICES_default : list ReleaseType := RELEASE_TYPES.

Record VersionSelectOption := mkOption {
  label : string;
  value : option string;
  hint : option string
}.

Record CommitReference := mkReference {
  raw : string;
  action : option string;
  owner : option string;
  repository : option string;
  issue : string;
  prefix : string
}.

Record CommitNote := mkNote {
  title : string;
  text : string
}.

(** [Record<string, string | null>]: an absent key reads [undefined]. *)
Abbreviation CommitMeta := (gmap string (option string)).

(** [CommitBase & CommitMeta]: the fixed fields and the open mapping of
    the captured header fields ([type], [scope], [subject], ...). *)
Record Commit := mkCommit {
  merge : option string;
  revert : option CommitMeta;
  header : option string;
  body : option string;
  footer : option string;
  notes : list CommitNote;
  mentions : list string;
  references : list CommitReference;
  meta : CommitMeta
}.

(** [commit.type === "feat"] *)
Definition type_is_feat (commit : Commit) : bool :=
  bool_decide (meta commit !! "type" = Some (Some "feat")).

(** The recommendation of conventional-recommended-bump: what the
    analysis returns ([level], [reason]) and the [releaseType] the bumper
    adds to it. *)
Record BumperRecommendation := mkRecommendation {
  level : N;
  reason : string;
  releaseType : option ReleaseType
}.

(** Modelled from the spec: [KiaraContext] is declared in [#/kiara], which
    is not part of the sources; these are the fields [version.ts] reads:
    the current version, the optional explicit release type
    ([patch], [minor] or [major]) and the bump strategy. *)
Record KiaraContext := mkContext {
  version_current : string;
  options_releaseType : option ReleaseType;
  options_bumpStrategy : option string
}.

(** The options object handed to [logger.prompt]. *)
Record PromptOptions := mkPrompt {
  prompt_message : string;
  prompt_type : string;
  prompt_options : list VersionSelectOption;
  prompt_initial : option string;
  prompt_cancel : string
}.

(** A call either returns or throws. *)
Inductive Completion (A : Type) :=
| Return (a : A)
| Throw (r : JS.Reason).
Arguments Return {A} a.
Arguments Throw {A} r.

(** ** The functions of [version.ts] *)

(** One option of the candidate list: the body of the [map] callback. *)
Definition bump_option (currentVersion : string) (increment : ReleaseType)
  : VersionSelectOption :=
  {| label := token increment +:+ " (" +:+
              JS.template (semver.inc currentVersion increment) +:+ ")";
     value := semver.inc currentVersion increment;
     hint := semver.inc currentVersion increment |}.

Definition getIncrementalBumps (currentVersion : string)
  : list VersionSelectOption :=
  let types := CHOICES_default in
  let choices := List.map (bump_option currentVersion) types in
  choices.

(** The request [promptManualVersion] makes. Reading [versions[0].value]
    of an empty list throws a [TypeError]. *)
Definition manualPrompt (context : KiaraContext) : Completion PromptOptions :=
  let versions := getIncrementalBumps (version_current context) in
  match versions !! 0%nat with
  | Some first =>
      Return {| prompt_message := "Recommended version bump";
                prompt_type := "select";
                prompt_options := versions;
                prompt_initial := value first;
                prompt_cancel := "reject" |}
  | None =>
      Throw (JS.Thrown (JS.mkError "TypeError"
        "undefined is not an object (evaluating 'versions[0].value')"))
  end.

(** [logger_prompt] is how the prompt surface settles the request. *)
Definition promptManualVersion
    (logger_prompt : PromptOptions -> JS.Promise (option string))
    (context : KiaraContext) : Completion (Result (option string) JS.Error) :=
  match manualPrompt context with
  | Return request =>
      Return (ResultAsync.fromPromise (logger_prompt request)
        (fun error =>
           JS.new_Error (match error with
                         | JS.Thrown e => JS.message e
                         | JS.Other _ => "Failed to select version bump"
                         end)))
  | Throw r => Throw r
  end.

Definition getVersionFromReleaseType
    (currentVersion : string) (releaseType : ReleaseType)
  : Result (option string) JS.Error :=
  ResultAsync.map (fun version : option string => version)
    (ResultAsync.fromPromise
       (JS.Promise_resolve (semver.inc currentVersion releaseType))
       (fun error =>
          JS.new_Error ("Failed to increment version with release type " +:+
                        token releaseType +:+ ": " +:+ JS.to_string error))).

Definition getManualVersion
    (logger_prompt : PromptOptions -> JS.Promise (option string))
    (context : KiaraContext) : Completion (Result (option string) JS.Error) :=
  match options_releaseType context with
  | Some releaseType =>
      Return (ResultAsync.andTee
                (getVersionFromReleaseType (version_current context) releaseType))
  | None =>
      match promptManualVersion logger_prompt context with
      | Return selected =>
          Return
            (ResultAsync.andTee
               (ResultAsync.andThen
                  (fun nextVersion : option string =>
                     ResultAsync.fromPromise (JS.Promise_resolve nextVersion)
                       (fun error =>
                          JS.new_Error ("Failed to get selected version bump: "
                                        +:+ JS.to_string error)))
                  (ResultAsync.andTee selected)))
      | Throw r => Throw r
      end
  end.

(** The state of the loop of [analyzeBumpLevel]. *)
Record BumpCount := mkCount {
  count_level : N;
  breakings : N;
  features : N
}.

(** One iteration of [for (const commit of commits)]. *)
Definition count_commit (st : BumpCount) (commit : Commit) : BumpCount :=
  if (0 <? length (notes commit))%nat then
    {| count_level := 0;
       breakings := breakings st + N.of_nat (length (notes commit));
       features := features st |}
  else if type_is_feat commit then
    {| count_level := if count_level st =? 2 then 1 else count_level st;
       breakings := breakings st;
       features := features st + 1 |}
  else st.

Definition count_commits (commits : list Commit) : BumpCount :=
  fold_left count_commit commits
    {| count_level := 2; breakings := 0; features := 0 |}.

Definition analyzeBumpLevel (commits : list Commit) : BumperRecommendation :=
  let st := count_commits commits in
  {| level := count_level st;
     reason :=
       if breakings st =? 1
       then "There is " +:+ JS.Number_toString (breakings st) +:+
            " BREAKING CHANGE and " +:+ JS.Number_toString (features st) +:+
            " features"
       else "There are " +:+ JS.Number_toString (breakings st) +:+
            " BREAKING CHANGES and " +:+ JS.Number_toString (features st) +:+
            " features";
     releaseType := None |}.

(** The table of conventional-recommended-bump that turns a level into a
    release type. *)
Definition VERSIONS : list ReleaseType := [major; minor; patch].

(** Modelled from the spec: [new Bumper().commits(...).bump(whatBump)] of
    conventional-recommended-bump, which is not part of the sources. It
    obtains the commit records from the commit source ([source] is how
    that fetch settles), hands them to [whatBump], and maps the severity of
    the answer to its release-type token: Major (0) to [major], Minor (1)
    to [minor], Patch (2) to [patch]. A failing commit source fails the
    whole call. *)
Definition Bumper_bump
    (source : JS.Promise (list Commit))
    (whatBump : list Commit -> JS.Promise BumperRecommendation)
  : JS.Promise BumperRecommendation :=
  match source with
  | JS.Resolved commits =>
      match whatBump commits with
      | JS.Resolved result =>
          JS.Resolved {| level := level result;
                         reason := reason result;
                         releaseType := VERSIONS !! N.to_nat (level result) |}
      | JS.Rejected r => JS.Rejected r
      end
  | JS.Rejected r => JS.Rejected r
  end.

Definition getConventionalBump (source : JS.Promise (list Commit))
  : Result BumperRecommendation JS.Error :=
  ResultAsync.fromPromise
    (Bumper_bump source
       (fun commits => JS.Promise_resolve (analyzeBumpLevel commits)))
    (fun error =>
       JS.new_Error ("Failed to get conventional bump: " +:+ JS.to_string error)).

(** [semver.inc] with an [undefined] release type throws inside the
    package and so gives [null]. *)
Definition getVersion (currentVersion : string) (recommended : BumperRecommendation)
  : Result (option string) JS.Error :=
  ResultAsync.map (fun version : option string => version)
    (ResultAsync.fromPromise
       (JS.Promise_resolve
          (match releaseType recommended with
           | Some t => semver.inc currentVersion t
           | None => None
           end))
       (fun error => JS.new_Error ("Failed to get version: " +:+ JS.to_string error))).

Definition getRecommendedVersion
    (source : JS.Promise (list Commit)) (context : KiaraContext)
  : Result (option string) JS.Error :=
  let basePipeline := getConventionalBump source in
  let pipelineWithSpacing :=
    match options_bumpStrategy context with
    | Some _ => basePipeline
    | None => ResultAsync.andTee basePipeline
    end in
  ResultAsync.andThen
    (fun recommendation => getVersion (version_current context) recommendation)
    (ResultAsync.andTee pipelineWithSpacing).

(** ** The prompt surface *)

(** What happens at the prompt: the operator picks one of the options,
    the operator cancels, or the prompt itself fails. *)
Inductive PromptEvent :=
| Selects (chosen : VersionSelectOption)
| Cancels
| Fails (r : JS.Reason).

(** The error consola rejects with when a prompt is cancelled. *)
Definition prompt_cancelled : JS.Error :=
  {| JS.name := "ConsolaPromptCancelledError"; JS.message := "Prompt cancelled." |}.

(** Modelled from the spec: the prompt surface [logger.prompt] (consola),
    which is not part of the sources:
    [select(message, options, default) -> value | Cancelled]. A selection
    resolves to the value of the chosen option. A cancellation is
    modelled for the mode the source asks for, [cancel: "reject"], under
    which it rejects the promise with the cancellation error. A failure of
    the prompt rejects with its reason. *)
Definition logger_prompt (event : PromptEvent) (request : PromptOptions)
  : JS.Promise (option string) :=
  match event with
  | Selects chosen => JS.Resolved (value chosen)
  | Cancels => JS.Rejected (JS.Thrown prompt_cancelled)
  | Fails r => JS.Rejected r
  end.

(** ** Commit records used in the examples *)

Definition commit_of (type : string) (notes : list CommitNote) : Commit :=
  {| merge := None; revert := None; header := None; body := None;
     footer := None; notes := notes; mentions := []; references := [];
     meta := {[ "type" := Some type ]} |}.

Definition breaking_note : CommitNote :=
  {| title := "BREAKING CHANGE"; text := "x" |}.

Definition release_commits : list Commit :=
  [commit_of "fix" []; commit_of "feat" []; commit_of "feat" [breaking_note]].

(** ** The classification, stated on the commit sequence *)

(** [commit.notes.length > 0] *)
Definition has_notes (commit : Commit) : bool :=
  (0 <? length (notes commit))%nat.

(** The number of notes of all commits. *)
Fixpoint total_notes (commits : list Commit) : N :=
  match commits with
  | [] => 0
  | c :: rest => N.of_nat (length (notes c)) + total_notes rest
  end.

(** A commit counted as a feature: no notes, and type [feat]. *)
Definition is_feature (commit : Commit) : bool :=
  negb (has_notes commit) && type_is_feat commit.

Fixpoint feature_commits (commits : list Commit) : N :=
  match commits with
  | [] => 0
  | c :: rest => (if is_feature c then 1 else 0) + feature_commits rest
  end.

(** The severities, by their level. *)
Definition Major : N := 0.
Definition Minor : N := 1.
Definition Patch : N := 2.

Definition severity_of (commits : list Commit) : N :=
  if existsb has_notes commits then Major
  else if existsb type_is_feat commits then Minor
  else Patch.

Definition reason_text (breaking feature : N) : string :=
  if breaking =? 1
  then "There is 1 BREAKING CHANGE and " +:+ JS.Number_toString feature +:+ " features"
  else "There are " +:+ JS.Number_toString breaking +:+ " BREAKING CHANGES and " +:+
       JS.Number_toString feature +:+ " features".

(** ** Versions and outcomes, for the statements *)

(** A character of a plain [major.minor.patch] text. *)
Definition is_plain (c : ascii) : bool :=
  semver.is_digit c || Ascii.eqb c ".".

(** The text of a plain version. *)
Definition plain_version (ma mi pa : N) : string :=
  JS.Number_toString ma +:+ "." +:+ JS.Number_toString mi +:+ "." +:+
  JS.Number_toString pa.

(** What the caller of [getManualVersion] can tell apart without reading
    message texts: a version, an error of some class, or an exception. *)
Inductive Outcome :=
| Version
| Failure (class : string)
| Exception.

Definition outcome_kind (c : Completion (Result (option string) JS.Error))
  : Outcome :=
  match c with
  | Return (Ok _) => Version
  | Return (Err e) => Failure (JS.name e)
  | Throw _ => Exception
  end.

(** ** The pipelines, for the statements *)

(** The release type the severity of a commit sequence stands for. *)
Definition recommended_type (commits : list Commit) : ReleaseType :=
  if existsb has_notes commits then major
  else if existsb type_is_feat commits then minor
  else patch.

(** A commit the loop of [analyzeBumpLevel] acts on: it has notes or its
    type is [feat]. *)
Definition is_relevant (commit : Commit) : bool :=
  has_notes commit || type_is_feat commit.

(** What the loop reads of a commit: the number of its notes and its
    [type] field. *)
Definition same_signal (c c' : Commit) : Prop :=
  length (notes c) = length (notes c')
  /\ meta c !! "type" = meta c' !! "type".

(** Precedence of plain versions: by major, then minor, then patch. *)
Definition version_lt (v w : N * N * N) : Prop :=
  let '(a, b, c) := v in
  let '(a', b', c') := w in
  a < a' \/ (a = a' /\ (b < b' \/ (b = b' /\ c < c'))).

(** * Properties *)

(** ** The commit classifier *)

Section Classifier.

Implicit Types (commits : list Commit) (commit : Commit) (st : BumpCount).

Lemma has_notes_true commit : has_notes commit = true <-> notes commit <> [].
Proof.
  unfold has_notes. destruct (notes commit); simpl; split; intros H;
    try done; lia.
Qed.

Lemma has_notes_false commit : has_notes commit = false <-> notes commit = [].
Proof.
  unfold has_notes. destruct (notes commit); simpl; split; intros H; done.
Qed.

(** The loop from any starting state. *)
Lemma fold_count_commit commits st :
  fold_left count_commit commits st =
  {| count_level :=
       if existsb has_notes commits then 0
       else if existsb type_is_feat commits
            then (if count_level st =? 2 then 1 else count_level st)
            else count_level st;
     breakings := breakings st + total_notes commits;
     features := features st + feature_commits commits |}.
Proof.
  revert st.
  induction commits as [|c rest IH]; intros st;
    cbn [fold_left existsb total_notes feature_commits].
  - destruct st; cbn [count_level breakings features orb].
    rewrite !N.add_0_r. reflexivity.
  - rewrite IH. unfold count_commit, is_feature.
    fold (has_notes c).
    destruct (has_notes c) eqn:Hn;
      cbn [count_level breakings features orb negb andb].
    + destruct (existsb has_notes rest), (existsb type_is_feat rest);
        cbn [N.eqb Pos.eqb]; f_equal; lia.
    + pose proof (proj1 (has_notes_false c) Hn) as Hl. rewrite Hl.
      destruct (type_is_feat c) eqn:Hf;
        cbn [count_level breakings features orb negb andb length N.of_nat].
      * destruct (existsb has_notes rest), (existsb type_is_feat rest),
          (count_level st =? 2) eqn:E; try rewrite E;
          cbn [N.eqb Pos.eqb]; f_equal; lia.
      * f_equal; lia.
Qed.

Lemma count_commits_spec commits :
  count_commits commits =
  {| count_level := severity_of commits;
     breakings := total_notes commits;
     features := feature_commits commits |}.
Proof.
  unfold count_commits. rewrite fold_count_commit. reflexivity.
Qed.

Lemma analyzeBumpLevel_spec commits :
  analyzeBumpLevel commits =
  {| level := severity_of commits;
     reason := reason_text (total_notes commits) (feature_commits commits);
     releaseType := None |}.
Proof.
  unfold analyzeBumpLevel, reason_text. rewrite count_commits_spec. simpl.
  destruct (total_notes commits =? 1) eqn:E; [|reflexivity].
  apply N.eqb_eq in E. rewrite E. reflexivity.
Qed.

Lemma type_is_feat_true commit :
  type_is_feat commit = true <-> meta commit !! "type" = Some (Some "feat").
Proof. unfold type_is_feat. apply bool_decide_eq_true. Qed.

End Classifier.

Section ClassifierCounts.

Implicit Types (commits : list Commit) (commit : Commit).

Lemma total_notes_app commits1 commits2 :
  total_notes (commits1 ++ commits2) =
  total_notes commits1 + total_notes commits2.
Proof.
  induction commits1 as [|c rest IH]; cbn [app total_notes]; [reflexivity|].
  rewrite IH. lia.
Qed.

Lemma feature_commits_app commits1 commits2 :
  feature_commits (commits1 ++ commits2) =
  feature_commits commits1 + feature_commits commits2.
Proof.
  induction commits1 as [|c rest IH]; cbn [app feature_commits];
    [reflexivity|].
  rewrite IH. lia.
Qed.

Lemma feature_commits_filter commits :
  feature_commits commits = N.of_nat (length (List.filter is_feature commits)).
Proof.
  induction commits as [|c rest IH]; cbn [feature_commits List.filter];
    [reflexivity|].
  rewrite IH. destruct (is_feature c); cbn [length]; lia.
Qed.

Lemma is_feature_true commit :
  is_feature commit = true <->
  notes commit = [] /\ meta commit !! "type" = Some (Some "feat").
Proof.
  unfold is_feature. rewrite andb_true_iff, negb_true_iff.
  rewrite has_notes_false, type_is_feat_true. reflexivity.
Qed.

(** Permuting the commits changes none of the three quantities the
    recommendation is built from. *)
Lemma total_notes_perm commits commits' :
  Permutation commits commits' -> total_notes commits = total_notes commits'.
Proof.
  induction 1; cbn [total_notes]; [reflexivity | congruence | lia | congruence].
Qed.

Lemma feature_commits_perm commits commits' :
  Permutation commits commits' ->
  feature_commits commits = feature_commits commits'.
Proof.
  induction 1; cbn [feature_commits];
    [reflexivity | congruence | lia | congruence].
Qed.

Lemma existsb_perm (p : Commit -> bool) commits commits' :
  Permutation commits commits' -> existsb p commits = existsb p commits'.
Proof.
  induction 1 as [|c l l' _ IH|c c' l| l l' l'' _ IH1 _ IH2];
    cbn [existsb].
  - reflexivity.
  - rewrite IH. reflexivity.
  - destruct (p c), (p c'); reflexivity.
  - congruence.
Qed.

Lemma severity_of_perm commits commits' :
  Permutation commits commits' -> severity_of commits = severity_of commits'.
Proof.
  intros HP. unfold severity_of.
  rewrite (existsb_perm has_notes _ _ HP), (existsb_perm type_is_feat _ _ HP).
  reflexivity.
Qed.

End ClassifierCounts.

(** C4. For every commit sequence the level of the recommendation is Major
    exactly when some commit has at least one note; it is Minor exactly
    when no commit has a note and some commit has type [feat]; it is Patch
    exactly when no commit has a note and none has type [feat]. The empty
    sequence gives Patch. *)
Theorem classify_severity (commits : list Commit) :
  (level (analyzeBumpLevel commits) = Major <->
     exists c, In c commits /\ notes c <> [])
  /\ (level (analyzeBumpLevel commits) = Minor <->
        (forall c, In c commits -> notes c = [])
        /\ exists c, In c commits /\ meta c !! "type" = Some (Some "feat"))
  /\ (level (analyzeBumpLevel commits) = Patch <->
        (forall c, In c commits -> notes c = [])
        /\ forall c, In c commits -> meta c !! "type" <> Some (Some "feat"))
  /\ level (analyzeBumpLevel []) = Patch.
Proof.
  rewrite analyzeBumpLevel_spec. cbn [level]. unfold severity_of.
  assert (Hnotes : existsb has_notes commits = false <->
                   forall c, In c commits -> notes c = []).
  { rewrite <- not_true_iff_false, existsb_exists. split.
    - intros H c Hc. apply has_notes_false.
      destruct (has_notes c) eqn:E; [|reflexivity].
      exfalso. apply H. exists c. auto.
    - intros H (c & Hc & Hn). apply has_notes_true in Hn.
      apply Hn, H, Hc. }
  assert (Hfeat : existsb type_is_feat commits = false <->
                  forall c, In c commits ->
                            meta c !! "type" <> Some (Some "feat")).
  { rewrite <- not_true_iff_false, existsb_exists. split.
    - intros H c Hc Hf. apply H. exists c. split; [exact Hc|].
      apply type_is_feat_true, Hf.
    - intros H (c & Hc & Hf). apply type_is_feat_true in Hf.
      exact (H c Hc Hf). }
  destruct (existsb has_notes commits) eqn:En.
  - apply existsb_exists in En as (c & Hc & Hn). apply has_notes_true in Hn.
    assert (Hno : ~ forall c, In c commits -> notes c = []).
    { intros H. apply Hn, H, Hc. }
    unfold Major, Minor, Patch.
    repeat split; try done; try (intros [H _]; done); eauto.
  - pose proof (proj1 Hnotes eq_refl) as Hall.
    assert (Hnone : ~ exists c, In c commits /\ notes c <> []).
    { intros (c & Hc & Hn). apply Hn, Hall, Hc. }
    destruct (existsb type_is_feat commits) eqn:Ef.
    + apply existsb_exists in Ef as (c & Hc & Hf).
      apply type_is_feat_true in Hf.
      unfold Major, Minor, Patch.
      repeat split; try done; eauto.
      intros [_ H]. exfalso. exact (H c Hc Hf).
    + pose proof (proj1 Hfeat eq_refl) as Hnf.
      unfold Major, Minor, Patch.
      repeat split; try done.
      intros [_ (c & Hc & Hf)]. exfalso. exact (Hnf c Hc Hf).
Qed.

(** C5. For every commit sequence the reason is
    "There is 1 BREAKING CHANGE and F features" when the number of notes
    is 1 and "There are B BREAKING CHANGES and F features" for every other
    number of notes B, where F is the number of feature commits; the word
    "features" stays plural for one feature, and the empty sequence gives
    "There are 0 BREAKING CHANGES and 0 features". *)
Theorem classify_reason (commits : list Commit) :
  reason (analyzeBumpLevel commits) =
    (if total_notes commits =? 1
     then "There is 1 BREAKING CHANGE and " +:+
          JS.Number_toString (feature_commits commits) +:+ " features"
     else "There are " +:+ JS.Number_toString (total_notes commits) +:+
          " BREAKING CHANGES and " +:+
          JS.Number_toString (feature_commits commits) +:+ " features")
  /\ reason (analyzeBumpLevel []) = "There are 0 BREAKING CHANGES and 0 features"
  /\ reason (analyzeBumpLevel [commit_of "feat" []]) =
       "There are 0 BREAKING CHANGES and 1 features"
  /\ reason (analyzeBumpLevel [commit_of "feat" []; commit_of "fix" [breaking_note]]) =
       "There is 1 BREAKING CHANGE and 1 features"
  /\ reason (analyzeBumpLevel [commit_of "fix" [breaking_note; breaking_note]]) =
       "There are 2 BREAKING CHANGES and 0 features".
Proof.
  split; [|repeat split; vm_compute; reflexivity].
  rewrite analyzeBumpLevel_spec. reflexivity.
Qed.

(** C6. The classification does not depend on the order of the commits: a
    permutation of a commit sequence gets the same recommendation, level
    and reason alike. *)
Theorem classify_permutation (commits commits' : list Commit) :
  Permutation commits commits' ->
  analyzeBumpLevel commits = analyzeBumpLevel commits'.
Proof.
  intros HP. rewrite !analyzeBumpLevel_spec.
  rewrite (severity_of_perm _ _ HP), (total_notes_perm _ _ HP),
    (feature_commits_perm _ _ HP).
  reflexivity.
Qed.

Lemma classify_permutation_witness :
  Permutation release_commits (rev release_commits)
  /\ analyzeBumpLevel release_commits = analyzeBumpLevel (rev release_commits).
Proof.
  split.
  - apply Permutation_rev.
  - apply (classify_permutation release_commits (rev release_commits)).
    apply Permutation_rev.
Defined.

(** C9. For every commit sequence the feature count of the classification
    is the number of commits that have no notes and whose type is [feat],
    and the breaking count is the number of notes. A commit with one or
    more notes, whatever its type, adds its notes to the breaking count and
    leaves the feature count as it is. *)
Theorem features_exclude_noted_commits (commits : list Commit) :
  features (count_commits commits) =
    N.of_nat (length (List.filter
      (fun c => negb (0 <? length (notes c))%nat && type_is_feat c) commits))
  /\ breakings (count_commits commits) = total_notes commits
  /\ reason (analyzeBumpLevel commits) =
       reason_text (breakings (count_commits commits))
                   (features (count_commits commits))
  /\ forall before c after,
       commits = before ++ c :: after ->
       notes c <> [] ->
       features (count_commits commits) =
         features (count_commits (before ++ after))
       /\ breakings (count_commits commits) =
            breakings (count_commits (before ++ after))
            + N.of_nat (length (notes c)).
Proof.
  rewrite analyzeBumpLevel_spec, count_commits_spec.
  cbn [features breakings reason].
  split; [apply feature_commits_filter|].
  split; [reflexivity|]. split; [reflexivity|].
  intros before c after -> Hnotes. rewrite count_commits_spec.
  cbn [features breakings].
  rewrite !feature_commits_app, !total_notes_app.
  cbn [feature_commits total_notes].
  apply has_notes_true in Hnotes. unfold is_feature. rewrite Hnotes.
  cbn [negb andb]. split; lia.
Qed.

Lemma features_exclude_noted_commits_witness :
  features (count_commits release_commits) = 1
  /\ breakings (count_commits release_commits) = 1
  /\ features (count_commits [commit_of "fix" []; commit_of "feat" []]) = 1.
Proof.
  destruct (features_exclude_noted_commits release_commits)
    as (_ & _ & _ & H).
  assert (Hn : notes (commit_of "feat" [breaking_note]) <> [])
    by discriminate.
  destruct (H [commit_of "fix" []; commit_of "feat" []]
              (commit_of "feat" [breaking_note]) [] eq_refl Hn)
    as [Hf Hb].
  split; [|split]; [rewrite Hf | rewrite Hb |]; vm_compute; reflexivity.
Defined.

(** ** The version calculator *)

(** The increment on sample versions. *)
Example inc_123_patch : semver.inc "1.2.3" patch = Some "1.2.4".
Proof. reflexivity. Qed.
Example inc_beta : semver.inc "1.2.3-beta.1" patch = Some "1.2.3".
Proof. reflexivity. Qed.
Example inc_beta2 : semver.inc " v1.2.0-beta.1+b.01 " minor = Some "1.2.0".
Proof. reflexivity. Qed.
Example inc_bad : semver.inc "not-a-version" patch = None.
Proof. reflexivity. Qed.
Example inc_bad2 : semver.inc "01.2.3" patch = None.
Proof. reflexivity. Qed.
Example inc_bad3 : semver.inc "1.2.3-01" patch = None.
Proof. reflexivity. Qed.
Example inc_bad4 : semver.inc "9007199254740992.2.3" patch = None.
Proof. reflexivity. Qed.
Example inc_max : semver.inc "9007199254740991.2.3" major = Some "9007199254740992.0.0".
Proof. reflexivity. Qed.
Example inc_pre_ok : semver.inc "1.2.3-0a.-+-" major = Some "2.0.0".
Proof. reflexivity. Qed.

Section Decimal.

(** Digits of a number printed in decimal. *)

Lemma string_of_uint_digits d :
  semver.all_chars semver.is_digit (NilEmpty.string_of_uint d) = true.
Proof. induction d; cbn; auto. Qed.

Lemma string_of_uint_length d :
  String.length (NilEmpty.string_of_uint d) = Decimal.nb_digits d.
Proof. induction d; cbn; auto. Qed.

Lemma to_uint_head n :
  N.to_uint n = Decimal.zero \/ forall d, N.to_uint n <> Decimal.D0 d.
Proof.
  assert (Hn : N.to_uint n = Decimal.unorm (N.to_uint n)).
  { rewrite <- (DecimalN.Unsigned.to_of (N.to_uint n)).
    rewrite DecimalN.Unsigned.of_to. reflexivity. }
  unfold Decimal.unorm in Hn.
  destruct (Decimal.nzhead (N.to_uint n)) eqn:E.
  - left. exact Hn.
  - exfalso. exact (DecimalFacts.nzhead_nonzero _ _ E).
  - right. intros d' H. rewrite H in Hn. discriminate.
  - right. intros d' H. rewrite H in Hn. discriminate.
  - right. intros d' H. rewrite H in Hn. discriminate.
  - right. intros d' H. rewrite H in Hn. discriminate.
  - right. intros d' H. rewrite H in Hn. discriminate.
  - right. intros d' H. rewrite H in Hn. discriminate.
  - right. intros d' H. rewrite H in Hn. discriminate.
  - right. intros d' H. rewrite H in Hn. discriminate.
  - right. intros d' H. rewrite H in Hn. discriminate.
Qed.

Lemma to_uint_nonnil n : N.to_uint n <> Decimal.Nil.
Proof.
  destruct n; cbn; [discriminate|]. apply DecimalPos.Unsigned.to_uint_nonnil.
Qed.

Lemma double_digits d :
  (Decimal.nb_digits (Decimal.Little.double d) <= S (Decimal.nb_digits d)
   /\ Decimal.nb_digits (Decimal.Little.succ_double d)
      <= S (Decimal.nb_digits d))%nat.
Proof. induction d; cbn; lia. Qed.

Lemma to_little_uint_digits p :
  (Decimal.nb_digits (Pos.to_little_uint p) <= Pos.size_nat p)%nat.
Proof.
  induction p as [p IH|p IH|]; cbn [Pos.to_little_uint Pos.size_nat].
  - pose proof (proj2 (double_digits (Pos.to_little_uint p))). lia.
  - pose proof (proj1 (double_digits (Pos.to_little_uint p))). lia.
  - cbn. lia.
Qed.

Lemma size_nat_bound p k :
  (k < Pos.size_nat p)%nat -> (2 ^ Pos.of_succ_nat k <= p~0)%positive.
Proof.
  revert k. induction p as [p IH|p IH|]; intros k Hk;
    cbn [Pos.size_nat] in Hk.
  - destruct k as [|k].
    + cbn. lia.
    + specialize (IH k ltac:(lia)).
      rewrite SuccNat2Pos.inj_succ, Pos.pow_succ_r. lia.
  - destruct k as [|k].
    + cbn. lia.
    + specialize (IH k ltac:(lia)).
      rewrite SuccNat2Pos.inj_succ, Pos.pow_succ_r. lia.
  - assert (k = 0%nat) by lia. subst k. cbn. lia.
Qed.

(** A safe integer prints in at most 53 characters. *)
Lemma Number_toString_length n :
  n <= semver.MAX_SAFE_INTEGER ->
  (String.length (JS.Number_toString n) <= 53)%nat.
Proof.
  intros Hn. unfold JS.Number_toString. rewrite string_of_uint_length.
  destruct n as [|p]; [cbn; lia|].
  cbn [N.to_uint]. unfold Pos.to_uint.
  rewrite DecimalFacts.nb_digits_rev.
  pose proof (to_little_uint_digits p) as Hd.
  destruct (le_lt_dec (Pos.size_nat p) 53) as [Hs|Hs]; [lia|].
  exfalso. pose proof (size_nat_bound p 53 Hs) as Hb.
  unfold semver.MAX_SAFE_INTEGER in Hn.
  change (2 ^ Pos.of_succ_nat 53)%positive with 18014398509481984%positive in Hb.
  lia.
Qed.

Lemma Number_toString_digits n :
  semver.all_chars semver.is_digit (JS.Number_toString n) = true.
Proof. apply string_of_uint_digits. Qed.

Lemma Number_toString_numeric n :
  semver.is_numeric_identifier (JS.Number_toString n) = true.
Proof.
  unfold semver.is_numeric_identifier.
  pose proof (Number_toString_digits n) as Hd.
  unfold JS.Number_toString in *.
  destruct (to_uint_head n) as [Hz|Hnz].
  - rewrite Hz. reflexivity.
  - pose proof (to_uint_nonnil n) as Hnil.
    destruct (N.to_uint n) as [|d|d|d|d|d|d|d|d|d|d] eqn:E;
      try (exfalso; apply Hnil; reflexivity);
      try (exfalso; exact (Hnz _ eq_refl));
      cbn [NilEmpty.string_of_uint] in *; rewrite Hd; reflexivity.
Qed.

(** Reading back a printed number. *)
Lemma to_number_toString n :
  semver.to_number (JS.Number_toString n) = Some n.
Proof.
  unfold semver.to_number. rewrite Number_toString_numeric.
  unfold JS.Number_toString. rewrite NilEmpty.usu.
  rewrite DecimalN.Unsigned.of_to. reflexivity.
Qed.

Lemma component_toString n :
  n <= semver.MAX_SAFE_INTEGER ->
  semver.component (JS.Number_toString n) = Some n.
Proof.
  intros Hn. unfold semver.component. rewrite to_number_toString.
  apply N.leb_le in Hn. rewrite Hn. reflexivity.
Qed.

End Decimal.

Section Parsing.

Import semver.

Lemma plain_char c :
  is_plain c = true ->
  is_space c = false /\ Ascii.eqb c "+" = false /\ Ascii.eqb c "-" = false
  /\ Ascii.eqb c "v" = false.
Proof.
  destruct c as [[] [] [] [] [] [] [] []]; vm_compute; intros H;
    try discriminate H; repeat split.
Qed.

Lemma digit_char c :
  is_digit c = true -> is_plain c = true /\ Ascii.eqb c "." = false.
Proof.
  destruct c as [[] [] [] [] [] [] [] []]; vm_compute; intros H;
    try discriminate H; repeat split.
Qed.

Lemma append_cons c r s : String c r +:+ s = String c (r +:+ s).
Proof. reflexivity. Qed.

Lemma all_chars_append p s1 s2 :
  all_chars p (s1 +:+ s2) = all_chars p s1 && all_chars p s2.
Proof.
  induction s1 as [|c r IH]; [reflexivity|].
  rewrite append_cons. cbn [all_chars]. rewrite IH. apply andb_assoc.
Qed.

Lemma all_chars_weaken (p q : ascii -> bool) s :
  (forall c, p c = true -> q c = true) ->
  all_chars p s = true -> all_chars q s = true.
Proof.
  intros Hpq. induction s as [|c r IH]; cbn [all_chars]; [reflexivity|].
  rewrite !andb_true_iff. intros [Hc Hr]. auto.
Qed.

Lemma string_length_append s1 s2 :
  String.length (s1 +:+ s2) = (String.length s1 + String.length s2)%nat.
Proof.
  induction s1 as [|c r IH]; [reflexivity|].
  rewrite append_cons. cbn [String.length]. rewrite IH. reflexivity.
Qed.

Lemma append_empty_r s : s +:+ "" = s.
Proof.
  induction s as [|c r IH]; [reflexivity|].
  rewrite append_cons, IH. reflexivity.
Qed.

Lemma trim_start_plain s : all_chars is_plain s = true -> trim_start s = s.
Proof.
  destruct s as [|c r]; cbn [all_chars trim_start]; [reflexivity|].
  rewrite andb_true_iff. intros [Hc _].
  destruct (plain_char c Hc) as (-> & _). reflexivity.
Qed.

Lemma trim_end_plain s : all_chars is_plain s = true -> trim_end s = s.
Proof.
  induction s as [|c r IH]; cbn [all_chars trim_end]; [reflexivity|].
  rewrite andb_true_iff. intros [Hc Hr]. rewrite (IH Hr).
  destruct (plain_char c Hc) as (-> & _). destruct r; reflexivity.
Qed.

Lemma cut_absent sep s :
  all_chars (fun c => negb (Ascii.eqb c sep)) s = true ->
  cut sep s = (s, None).
Proof.
  induction s as [|c r IH]; cbn [all_chars cut]; [reflexivity|].
  rewrite andb_true_iff, negb_true_iff. intros [-> Hr].
  rewrite (IH Hr). reflexivity.
Qed.

Lemma split_absent sep s :
  all_chars (fun c => negb (Ascii.eqb c sep)) s = true ->
  split sep s = [s].
Proof.
  induction s as [|c r IH]; cbn [all_chars split]; [reflexivity|].
  rewrite andb_true_iff, negb_true_iff. intros [-> Hr].
  rewrite (IH Hr). reflexivity.
Qed.

Lemma split_first sep s rest :
  all_chars (fun c => negb (Ascii.eqb c sep)) s = true ->
  split sep (s +:+ String sep rest) = s :: split sep rest.
Proof.
  induction s as [|c r IH]; rewrite ?append_cons; cbn [all_chars split].
  - intros _. change ("" +:+ String sep rest) with (String sep rest).
    cbn [split]. rewrite Ascii.eqb_refl. reflexivity.
  - rewrite andb_true_iff, negb_true_iff. intros [-> Hr].
    rewrite (IH Hr). reflexivity.
Qed.

Lemma digits_no_dot s :
  all_chars is_digit s = true ->
  all_chars (fun c => negb (Ascii.eqb c ".")) s = true.
Proof.
  apply all_chars_weaken. intros c Hc.
  destruct (digit_char c Hc) as [_ ->]. reflexivity.
Qed.

Lemma digits_plain s :
  all_chars is_digit s = true -> all_chars is_plain s = true.
Proof.
  apply all_chars_weaken. intros c Hc. apply (digit_char c Hc).
Qed.

Lemma plain_version_chars ma mi pa :
  all_chars is_plain (plain_version ma mi pa) = true.
Proof.
  unfold plain_version. rewrite !all_chars_append.
  rewrite !(digits_plain _ (Number_toString_digits _)). reflexivity.
Qed.

Lemma plain_version_length ma mi pa :
  ma <= MAX_SAFE_INTEGER -> mi <= MAX_SAFE_INTEGER ->
  pa <= MAX_SAFE_INTEGER ->
  (String.length (plain_version ma mi pa) <= MAX_LENGTH)%nat.
Proof.
  intros H1 H2 H3. unfold plain_version, MAX_LENGTH.
  rewrite !string_length_append.
  apply Number_toString_length in H1, H2, H3.
  cbn [String.length]. lia.
Qed.

Lemma plain_version_head ma mi pa :
  strip_v (plain_version ma mi pa) = plain_version ma mi pa.
Proof.
  pose proof (plain_version_chars ma mi pa) as H. unfold strip_v.
  destruct (plain_version ma mi pa) as [|c r]; [reflexivity|].
  cbn [all_chars] in H. apply andb_true_iff in H as [Hc _].
  destruct (plain_char c Hc) as (_ & _ & _ & Hv).
  destruct c as [[] [] [] [] [] [] [] []]; try reflexivity.
  discriminate Hv.
Qed.

(** A plain version of safe integers parses to its three numbers. *)
Lemma parse_plain_version ma mi pa :
  ma <= MAX_SAFE_INTEGER -> mi <= MAX_SAFE_INTEGER ->
  pa <= MAX_SAFE_INTEGER ->
  parse (plain_version ma mi pa) = Some (mkSemVer ma mi pa [] []).
Proof.
  intros H1 H2 H3. unfold parse. cbv zeta.
  pose proof (plain_version_length ma mi pa H1 H2 H3) as Hlen.
  destruct (Nat.ltb_spec MAX_LENGTH (String.length (plain_version ma mi pa)))
    as [Hlt|_]; [lia|].
  pose proof (plain_version_chars ma mi pa) as Hplain.
  unfold trim. rewrite (trim_start_plain _ Hplain), (trim_end_plain _ Hplain).
  rewrite plain_version_head.
  rewrite (cut_absent "+"), (cut_absent "-").
  2,3: revert Hplain; apply all_chars_weaken; intros c Hc;
       destruct (plain_char c Hc) as (_ & Hp & Hm & _);
       rewrite ?Hp, ?Hm; reflexivity.
  change (plain_version ma mi pa) with
    (JS.Number_toString ma +:+ String "."
       (JS.Number_toString mi +:+ String "." (JS.Number_toString pa))).
  rewrite split_first by apply digits_no_dot, Number_toString_digits.
  rewrite split_first by apply digits_no_dot, Number_toString_digits.
  rewrite split_absent by apply digits_no_dot, Number_toString_digits.
  rewrite !component_toString by assumption.
  reflexivity.
Qed.

(** Every version [inc] returns is a plain version. *)
Lemma inc_plain version release result :
  inc version release = Some result ->
  exists ma mi pa, result = plain_version ma mi pa.
Proof.
  unfold inc. destruct (parse version) as [v|]; [|discriminate].
  intros [= <-]. unfold format, plain_version.
  destruct release; cbn [SemVer_inc prerelease sv_major sv_minor sv_patch];
    rewrite append_empty_r; eauto.
Qed.

End Parsing.

Lemma getVersionFromReleaseType_inc currentVersion releaseType :
  getVersionFromReleaseType currentVersion releaseType =
  Ok (semver.inc currentVersion releaseType).
Proof. reflexivity. Qed.

Lemma inc_plain_version ma mi pa release :
  ma <= semver.MAX_SAFE_INTEGER -> mi <= semver.MAX_SAFE_INTEGER ->
  pa <= semver.MAX_SAFE_INTEGER ->
  semver.inc (plain_version ma mi pa) release =
  Some match release with
       | major => plain_version (ma + 1) 0 0
       | minor => plain_version ma (mi + 1) 0
       | patch => plain_version ma mi (pa + 1)
       end.
Proof.
  intros H1 H2 H3. unfold semver.inc.
  rewrite (parse_plain_version ma mi pa H1 H2 H3).
  unfold semver.format, plain_version.
  destruct release;
    cbn [semver.SemVer_inc semver.prerelease semver.sv_major semver.sv_minor
         semver.sv_patch semver.is_empty orb];
    rewrite ?orb_true_r, append_empty_r; reflexivity.
Qed.

Lemma inc_release currentVersion v release :
  semver.parse currentVersion = Some v ->
  semver.prerelease v = [] ->
  semver.inc currentVersion release =
  Some match release with
       | major => plain_version (semver.sv_major v + 1) 0 0
       | minor => plain_version (semver.sv_major v) (semver.sv_minor v + 1) 0
       | patch => plain_version (semver.sv_major v) (semver.sv_minor v)
                                (semver.sv_patch v + 1)
       end.
Proof.
  intros Hparse Hpre. unfold semver.inc. rewrite Hparse.
  unfold semver.format, plain_version.
  destruct release;
    cbn [semver.SemVer_inc semver.prerelease semver.sv_major semver.sv_minor
         semver.sv_patch];
    rewrite Hpre; cbn [semver.is_empty];
    rewrite ?orb_true_r, append_empty_r; reflexivity.
Qed.

(** C8. For a current version [MAJOR.MINOR.PATCH] without suffix (its
    numbers being safe integers) the next version is [(MAJOR+1).0.0] for
    [major], [MAJOR.(MINOR+1).0] for [minor] and [MAJOR.MINOR.(PATCH+1)]
    for [patch]; from "1.2.3" these are "2.0.0", "1.3.0" and "1.2.4". The
    same holds of every current version that parses without pre-release
    identifiers. The result of an increment is always a plain
    [major.minor.patch] text of digits and dots: a pre-release or build
    suffix of the current version is not in it. *)
Theorem increment_rules (ma mi pa : N) :
  ma <= semver.MAX_SAFE_INTEGER ->
  mi <= semver.MAX_SAFE_INTEGER ->
  pa <= semver.MAX_SAFE_INTEGER ->
  (getVersionFromReleaseType (plain_version ma mi pa) major =
     Ok (Some (plain_version (ma + 1) 0 0))
   /\ getVersionFromReleaseType (plain_version ma mi pa) minor =
        Ok (Some (plain_version ma (mi + 1) 0))
   /\ getVersionFromReleaseType (plain_version ma mi pa) patch =
        Ok (Some (plain_version ma mi (pa + 1))))
  /\ (getVersionFromReleaseType "1.2.3" patch = Ok (Some "1.2.4")
      /\ getVersionFromReleaseType "1.2.3" minor = Ok (Some "1.3.0")
      /\ getVersionFromReleaseType "1.2.3" major = Ok (Some "2.0.0"))
  /\ (forall current release result,
        getVersionFromReleaseType current release = Ok (Some result) ->
        (exists a b c, result = plain_version a b c)
        /\ semver.all_chars is_plain result = true)
  /\ (forall current v,
        semver.parse current = Some v -> semver.prerelease v = [] ->
        getVersionFromReleaseType current major =
          Ok (Some (plain_version (semver.sv_major v + 1) 0 0))
        /\ getVersionFromReleaseType current minor =
             Ok (Some (plain_version (semver.sv_major v)
                                     (semver.sv_minor v + 1) 0))
        /\ getVersionFromReleaseType current patch =
             Ok (Some (plain_version (semver.sv_major v) (semver.sv_minor v)
                                     (semver.sv_patch v + 1))))
  /\ (getVersionFromReleaseType "1.2.3-beta.1" patch = Ok (Some "1.2.3")
      /\ getVersionFromReleaseType "1.2.3+build.7" patch = Ok (Some "1.2.4")
      /\ getVersionFromReleaseType "1.2.3-rc.1+build.7" major = Ok (Some "2.0.0")).
Proof.
  intros H1 H2 H3. rewrite !getVersionFromReleaseType_inc.
  rewrite !inc_plain_version by assumption.
  split; [auto|]. split; [repeat split|]. split; [|split; [|repeat split]].
  - intros current release result. rewrite getVersionFromReleaseType_inc.
    intros [= Hinc]. destruct (inc_plain _ _ _ Hinc) as (a & b & c & ->).
    split; [eauto|]. apply plain_version_chars.
  - intros current v Hparse Hpre. rewrite !getVersionFromReleaseType_inc.
    rewrite !(inc_release current v _ Hparse Hpre). auto.
Qed.

Lemma increment_rules_witness :
  getVersionFromReleaseType "4.5.6" major = Ok (Some "5.0.0")
  /\ getVersionFromReleaseType "4.5.6" minor = Ok (Some "4.6.0")
  /\ getVersionFromReleaseType "4.5.6" patch = Ok (Some "4.5.7").
Proof.
  assert (H : forall n, n <= 6 -> n <= semver.MAX_SAFE_INTEGER).
  { intros n Hn. unfold semver.MAX_SAFE_INTEGER. lia. }
  exact (proj1 (increment_rules 4 5 6 (H 4 ltac:(lia)) (H 5 ltac:(lia))
                                (H 6 ltac:(lia)))).
Defined.

(** ** The manual candidate list *)

Lemma valid_inc currentVersion :
  semver.valid currentVersion <> None ->
  forall release, exists next, semver.inc currentVersion release = Some next.
Proof.
  unfold semver.valid, semver.inc. intros H release.
  destruct (semver.parse currentVersion); [eauto|]. contradiction.
Qed.

Lemma invalid_inc currentVersion release :
  semver.valid currentVersion = None ->
  semver.inc currentVersion release = None.
Proof.
  unfold semver.valid, semver.inc.
  destruct (semver.parse currentVersion); [discriminate|reflexivity].
Qed.

(** C7. For every valid current version the candidate list is the patch,
    minor and major increments of it, in that order; each option is
    labelled "type (version)" and has the version as its value, and the
    prompt is asked with the first, patch value as its initial selection.
    For "2.0.0" the values are "2.0.1", "2.1.0", "3.0.0" and the initial
    selection is "2.0.1". *)
Theorem manual_candidates (context : KiaraContext) :
  semver.valid (version_current context) <> None ->
  (exists p mi ma,
      semver.inc (version_current context) patch = Some p
      /\ semver.inc (version_current context) minor = Some mi
      /\ semver.inc (version_current context) major = Some ma
      /\ getIncrementalBumps (version_current context) =
           [ {| label := "patch (" +:+ p +:+ ")"; value := Some p; hint := Some p |};
             {| label := "minor (" +:+ mi +:+ ")"; value := Some mi; hint := Some mi |};
             {| label := "major (" +:+ ma +:+ ")"; value := Some ma; hint := Some ma |} ]
      /\ manualPrompt context =
           Return {| prompt_message := "Recommended version bump";
                     prompt_type := "select";
                     prompt_options := getIncrementalBumps (version_current context);
                     prompt_initial := Some p;
                     prompt_cancel := "reject" |})
  /\ List.map value (getIncrementalBumps "2.0.0") =
       [Some "2.0.1"; Some "2.1.0"; Some "3.0.0"]
  /\ List.map label (getIncrementalBumps "2.0.0") =
       ["patch (2.0.1)"; "minor (2.1.0)"; "major (3.0.0)"]
  /\ (forall releaseType bumpStrategy,
        exists request,
          manualPrompt (mkContext "2.0.0" releaseType bumpStrategy) = Return request
          /\ prompt_initial request = Some "2.0.1").
Proof.
  intros Hvalid. split; [|repeat split; eexists; split; reflexivity].
  destruct (valid_inc _ Hvalid patch) as [p Hp].
  destruct (valid_inc _ Hvalid minor) as [mi Hmi].
  destruct (valid_inc _ Hvalid major) as [ma Hma].
  exists p, mi, ma. repeat split; try assumption.
  - unfold getIncrementalBumps, CHOICES_default, RELEASE_TYPES, bump_option.
    cbn [List.map token]. rewrite Hp, Hmi, Hma. reflexivity.
  - unfold manualPrompt, getIncrementalBumps, CHOICES_default, RELEASE_TYPES.
    cbn [List.map lookup list_lookup bump_option value]. rewrite Hp.
    reflexivity.
Qed.

Lemma manual_candidates_witness :
  semver.valid "2.0.0" <> None
  /\ getIncrementalBumps "2.0.0" =
       [ mkOption "patch (2.0.1)" (Some "2.0.1") (Some "2.0.1");
         mkOption "minor (2.1.0)" (Some "2.1.0") (Some "2.1.0");
         mkOption "major (3.0.0)" (Some "3.0.0") (Some "3.0.0") ].
Proof.
  assert (Hvalid : semver.valid "2.0.0" <> None) by (vm_compute; discriminate).
  split; [exact Hvalid|].
  destruct (manual_candidates (mkContext "2.0.0" None None) Hvalid)
    as [(p & mi & ma & Hp & Hmi & Hma & Hlist & _) _].
  cbn [version_current] in *.
  vm_compute in Hp, Hmi, Hma.
  injection Hp as <-. injection Hmi as <-. injection Hma as <-.
  exact Hlist.
Defined.

(** C10. For every input string, valid or not, [getIncrementalBumps]
    returns three options, for patch, minor and major in that order, and
    the prompt request built from them never fails on its first option.
    For an invalid current version the increment gives [null], so the
    labels read "type (null)" and the values are [null]. *)
Theorem candidates_total (currentVersion : string) :
  getIncrementalBumps currentVersion =
    [ bump_option currentVersion patch;
      bump_option currentVersion minor;
      bump_option currentVersion major ]
  /\ length (getIncrementalBumps currentVersion) = 3%nat
  /\ (forall releaseType bumpStrategy,
        exists request,
          manualPrompt (mkContext currentVersion releaseType bumpStrategy)
          = Return request)
  /\ (semver.valid currentVersion = None ->
      getIncrementalBumps currentVersion =
        [ {| label := "patch (null)"; value := None; hint := None |};
          {| label := "minor (null)"; value := None; hint := None |};
          {| label := "major (null)"; value := None; hint := None |} ]).
Proof.
  repeat split.
  - intros releaseType bumpStrategy. eexists. reflexivity.
  - intros Hinvalid.
    unfold getIncrementalBumps, CHOICES_default, RELEASE_TYPES, bump_option.
    cbn [List.map]. rewrite !(invalid_inc _ _ Hinvalid). reflexivity.
Qed.

Lemma candidates_total_witness :
  semver.valid "not-a-version" = None
  /\ List.map label (getIncrementalBumps "not-a-version") =
       ["patch (null)"; "minor (null)"; "major (null)"].
Proof.
  assert (Hinvalid : semver.valid "not-a-version" = None) by reflexivity.
  split; [exact Hinvalid|].
  destruct (candidates_total "not-a-version") as (_ & _ & _ & H).
  rewrite (H Hinvalid). reflexivity.
Defined.

(** ** Results of the pipelines *)

(** C1. The code at the invalid current version "not-a-version": the
    increment gives [null], and both [getVersionFromReleaseType] and
    [getVersion] return it as a success, [Ok null], for every release
    type; no error is returned. *)
Theorem invalid_current_version_is_ok :
  semver.valid "not-a-version" = None
  /\ (forall releaseType,
        getVersionFromReleaseType "not-a-version" releaseType = Ok None)
  /\ (forall recommended, getVersion "not-a-version" recommended = Ok None)
  /\ (forall source_commits bumpStrategy,
        getRecommendedVersion (JS.Resolved source_commits)
          (mkContext "not-a-version" None bumpStrategy) = Ok None)
  /\ is_ok (getVersionFromReleaseType "not-a-version" patch) = true.
Proof.
  assert (Hinvalid : semver.valid "not-a-version" = None) by reflexivity.
  assert (Hv : forall recommended,
             getVersion "not-a-version" recommended = Ok None).
  { intros recommended. unfold getVersion.
    destruct (releaseType recommended) as [t|]; [|reflexivity].
    rewrite (invalid_inc _ t Hinvalid). reflexivity. }
  split; [exact Hinvalid|]. split; [|split; [exact Hv|split]].
  - intros t. rewrite getVersionFromReleaseType_inc.
    rewrite (invalid_inc _ t Hinvalid). reflexivity.
  - intros source_commits bumpStrategy. unfold getRecommendedVersion.
    destruct bumpStrategy; apply Hv.
  - reflexivity.
Qed.

(** C2 as stated: for the three commits fix, feat, feat with one breaking
    note and the current version "1.0.0", the claimed reason
    "There is 1 BREAKING CHANGE and 2 features" is not the reason the
    classifier gives. *)
Lemma release_example_claimed_reason_fails :
  ~ (level (analyzeBumpLevel release_commits) = Major
     /\ reason (analyzeBumpLevel release_commits) =
          "There is 1 BREAKING CHANGE and 2 features"
     /\ getRecommendedVersion (JS.Resolved release_commits)
          (mkContext "1.0.0" None None) = Ok (Some "2.0.0")).
Proof. intros (_ & H & _). vm_compute in H. discriminate H. Qed.

(** C2, amended. For the three commits fix, feat, feat with one breaking
    note and the current version "1.0.0", the pipeline classifies Major
    with the reason "There is 1 BREAKING CHANGE and 1 features" (the commit
    with the note is not counted as a feature), maps it to the release
    type [major] and resolves "2.0.0". *)
Theorem release_example :
  level (analyzeBumpLevel release_commits) = Major
  /\ reason (analyzeBumpLevel release_commits) =
       "There is 1 BREAKING CHANGE and 1 features"
  /\ getConventionalBump (JS.Resolved release_commits) =
       Ok {| level := Major;
             reason := "There is 1 BREAKING CHANGE and 1 features";
             releaseType := Some major |}
  /\ getRecommendedVersion (JS.Resolved release_commits)
       (mkContext "1.0.0" None None) = Ok (Some "2.0.0").
Proof. repeat split; vm_compute; reflexivity. Qed.

(** C3 as stated: a cancelled prompt and a prompt that failed with a
    [TypeError] reach the caller as the same kind of outcome, an [Err]
    holding a plain [Error]; they are not distinct kinds. *)
Lemma cancellation_not_distinct :
  ~ (outcome_kind
       (getManualVersion (logger_prompt Cancels) (mkContext "2.0.0" None None))
     <> outcome_kind
          (getManualVersion
             (logger_prompt (Fails (JS.Thrown (JS.mkError "TypeError" "write EPIPE"))))
             (mkContext "2.0.0" None None))).
Proof. intros H. apply H. reflexivity. Qed.

(** C3, amended. When the operator cancels the manual prompt, the prompt
    rejects and the run ends with an [Err] holding a plain [Error] whose
    message is that of the rejection, "Prompt cancelled."; a failure of
    the prompt ends the same way with its own message, so both have the
    outcome kind [Failure "Error"]; no version is produced. *)
Theorem cancellation_is_error (context : KiaraContext) :
  options_releaseType context = None ->
  getManualVersion (logger_prompt Cancels) context =
    Return (Err (JS.new_Error "Prompt cancelled."))
  /\ promptManualVersion (logger_prompt Cancels) context =
       Return (Err (JS.new_Error "Prompt cancelled."))
  /\ (forall e,
        getManualVersion (logger_prompt (Fails (JS.Thrown e))) context =
          Return (Err (JS.new_Error (JS.message e))))
  /\ (forall e,
        outcome_kind (getManualVersion (logger_prompt Cancels) context) =
        outcome_kind (getManualVersion (logger_prompt (Fails (JS.Thrown e))) context))
  /\ outcome_kind (getManualVersion (logger_prompt Cancels) context) =
       Failure "Error".
Proof.
  intros Hnone. unfold getManualVersion. rewrite Hnone.
  repeat split; intros; reflexivity.
Qed.

Lemma cancellation_is_error_witness :
  options_releaseType (mkContext "2.0.0" None None) = None
  /\ getManualVersion (logger_prompt Cancels) (mkContext "2.0.0" None None) =
       Return (Err (JS.new_Error "Prompt cancelled.")).
Proof.
  split; [reflexivity|].
  exact (proj1 (cancellation_is_error (mkContext "2.0.0" None None) eq_refl)).
Defined.

(** * Further properties *)

(** ** The classifier as a function of the commit sequence *)

Section ClassifierAlgebra.

Implicit Types (commits : list Commit) (commit : Commit).

Lemma severity_of_app commits1 commits2 :
  severity_of (commits1 ++ commits2) =
  N.min (severity_of commits1) (severity_of commits2).
Proof.
  unfold severity_of. rewrite !existsb_app.
  destruct (existsb has_notes commits1), (existsb has_notes commits2),
    (existsb type_is_feat commits1), (existsb type_is_feat commits2);
    reflexivity.
Qed.

Lemma severity_of_bound commits : severity_of commits <= 2.
Proof.
  unfold severity_of, Major, Minor, Patch.
  destruct (existsb has_notes commits), (existsb type_is_feat commits); lia.
Qed.

Lemma has_notes_total commits :
  existsb has_notes commits = false <-> total_notes commits = 0.
Proof.
  induction commits as [|c rest IH]; cbn [existsb total_notes]; [done|].
  rewrite orb_false_iff, IH, has_notes_false. split.
  - intros [-> ->]. reflexivity.
  - intros H. split; [|lia].
    destruct (notes c); [reflexivity|]. cbn [length] in H. lia.
Qed.

Lemma no_notes_features commits :
  existsb has_notes commits = false ->
  (existsb type_is_feat commits = false <-> feature_commits commits = 0).
Proof.
  induction commits as [|c rest IH]; cbn [existsb feature_commits]; [done|].
  rewrite orb_false_iff. intros [Hc Hrest]. specialize (IH Hrest).
  unfold is_feature. rewrite Hc. cbn [negb andb].
  rewrite orb_false_iff, IH.
  destruct (type_is_feat c); split; try lia; try (intros [? ?]; done).
Qed.

Lemma severity_of_relevant commits :
  severity_of (List.filter is_relevant commits) = severity_of commits.
Proof.
  unfold severity_of.
  assert (H : forall p : Commit -> bool,
             (forall c, p c = true -> is_relevant c = true) ->
             existsb p (List.filter is_relevant commits) = existsb p commits).
  { intros p Hp. induction commits as [|c rest IH]; [reflexivity|].
    cbn [List.filter existsb].
    destruct (is_relevant c) eqn:E; cbn [existsb]; rewrite IH; [reflexivity|].
    destruct (p c) eqn:Ep; [|reflexivity].
    rewrite (Hp c Ep) in E. discriminate. }
  rewrite !H; [reflexivity| |]; intros c Hc; unfold is_relevant; rewrite Hc;
    [apply orb_true_r|reflexivity].
Qed.

Lemma total_notes_relevant commits :
  total_notes (List.filter is_relevant commits) = total_notes commits.
Proof.
  induction commits as [|c rest IH]; [reflexivity|].
  cbn [List.filter total_notes].
  assert (Hr : is_relevant c = has_notes c || type_is_feat c) by reflexivity.
  rewrite Hr.
  destruct (has_notes c) eqn:E; cbn [orb].
  - cbn [total_notes]. rewrite IH. reflexivity.
  - apply has_notes_false in E. rewrite E.
    destruct (type_is_feat c); cbn [total_notes length N.of_nat];
      rewrite ?E, IH; reflexivity.
Qed.

Lemma feature_commits_relevant commits :
  feature_commits (List.filter is_relevant commits) = feature_commits commits.
Proof.
  induction commits as [|c rest IH]; [reflexivity|].
  cbn [List.filter feature_commits].
  assert (Hr : is_relevant c = has_notes c || type_is_feat c) by reflexivity.
  assert (Hf : is_feature c = negb (has_notes c) && type_is_feat c)
    by reflexivity.
  rewrite Hr, Hf.
  destruct (has_notes c) eqn:En, (type_is_feat c) eqn:Ef;
    cbn [orb negb andb feature_commits];
    rewrite ?Hf, ?En, ?Ef, IH; reflexivity.
Qed.

Lemma same_signal_tests c c' :
  same_signal c c' ->
  has_notes c = has_notes c' /\ type_is_feat c = type_is_feat c'.
Proof.
  intros [Hn Ht]. unfold has_notes, type_is_feat. rewrite Hn, Ht. done.
Qed.

End ClassifierAlgebra.

(** X1. Classifying a concatenation: the level is the stronger (smaller)
    of the two levels and both counters add up; so commits added to a
    sequence never weaken its severity. *)
Theorem classify_app (commits1 commits2 : list Commit) :
  count_level (count_commits (commits1 ++ commits2)) =
    N.min (count_level (count_commits commits1))
          (count_level (count_commits commits2))
  /\ breakings (count_commits (commits1 ++ commits2)) =
       breakings (count_commits commits1) + breakings (count_commits commits2)
  /\ features (count_commits (commits1 ++ commits2)) =
       features (count_commits commits1) + features (count_commits commits2)
  /\ level (analyzeBumpLevel (commits1 ++ commits2)) <=
       level (analyzeBumpLevel commits1).
Proof.
  rewrite !analyzeBumpLevel_spec, !count_commits_spec.
  cbn [count_level breakings features level].
  rewrite severity_of_app, total_notes_app, feature_commits_app.
  repeat split; lia.
Qed.

(** X2. Commits without notes whose type is not [feat] (fixes, chores,
    commits with no type at all) have no effect: dropping them from the
    sequence leaves the recommendation unchanged. *)
Theorem classify_ignores_other_commits (commits : list Commit) :
  analyzeBumpLevel (List.filter is_relevant commits) = analyzeBumpLevel commits.
Proof.
  rewrite !analyzeBumpLevel_spec.
  rewrite severity_of_relevant, total_notes_relevant, feature_commits_relevant.
  reflexivity.
Qed.

(** X3. The recommendation depends on a commit only through the number of
    its notes and its [type] field: two sequences whose commits agree on
    these, position by position, get the same recommendation. *)
Theorem classify_same_signal (commits commits' : list Commit) :
  Forall2 same_signal commits commits' ->
  analyzeBumpLevel commits = analyzeBumpLevel commits'.
Proof.
  intros HF. rewrite !analyzeBumpLevel_spec.
  assert (H : severity_of commits = severity_of commits'
              /\ total_notes commits = total_notes commits'
              /\ feature_commits commits = feature_commits commits').
  { unfold severity_of.
    assert (G : existsb has_notes commits = existsb has_notes commits'
                /\ existsb type_is_feat commits = existsb type_is_feat commits'
                /\ total_notes commits = total_notes commits'
                /\ feature_commits commits = feature_commits commits').
    { induction HF as [|c c' l l' Hc _ (IH1 & IH2 & IH3 & IH4)];
        [done|].
      destruct (same_signal_tests c c' Hc) as [Hn Ht].
      cbn [existsb total_notes feature_commits]. unfold is_feature.
      rewrite Hn, Ht, IH1, IH2, IH3, IH4. destruct Hc as [-> _]. done. }
    destruct G as (-> & -> & -> & ->). done. }
  destruct H as (-> & -> & ->). reflexivity.
Qed.

Lemma classify_same_signal_witness :
  analyzeBumpLevel [commit_of "feat" [breaking_note]] =
  analyzeBumpLevel
    [ {| merge := Some "merge"; revert := None; header := Some "feat: x";
         body := None; footer := None;
         notes := [ {| title := "BREAKING CHANGE"; text := "other" |} ];
         mentions := ["someone"]; references := [];
         meta := {[ "type" := Some "feat" ]} |} ].
Proof.
  apply classify_same_signal.
  constructor; [|constructor]. split; reflexivity.
Defined.

(** X4. The three variables of the loop stay in step: the level is Major
    exactly when the breaking count is positive, Minor exactly when the
    breaking count is zero and the feature count positive, and Patch
    exactly when both counts are zero; it is never 3. *)
Theorem level_matches_counts (commits : list Commit) :
  let st := count_commits commits in
  (count_level st = 0 <-> 0 < breakings st)
  /\ (count_level st = 1 <-> breakings st = 0 /\ 0 < features st)
  /\ (count_level st = 2 <-> breakings st = 0 /\ features st = 0)
  /\ count_level st <= 2.
Proof.
  cbv zeta. rewrite count_commits_spec.
  cbn [count_level breakings features].
  pose proof (has_notes_total commits) as Hn.
  pose proof (no_notes_features commits) as Hf.
  unfold severity_of, Major, Minor, Patch.
  destruct (existsb has_notes commits) eqn:En.
  - assert (total_notes commits <> 0) by (intros E; apply Hn in E; done).
    repeat split; try lia; intros; lia.
  - pose proof (proj1 Hn eq_refl) as Hz. specialize (Hf eq_refl).
    destruct (existsb type_is_feat commits) eqn:Ef.
    + assert (feature_commits commits <> 0)
        by (intros E; apply Hf in E; done).
      repeat split; try lia; intros; lia.
    + pose proof (proj1 Hf eq_refl) as Hz'.
      repeat split; try lia; intros; lia.
Qed.

(** ** The automatic pipeline *)

Lemma getConventionalBump_resolved commits :
  getConventionalBump (JS.Resolved commits) =
  Ok {| level := severity_of commits;
        reason := reason_text (total_notes commits) (feature_commits commits);
        releaseType := Some (recommended_type commits) |}.
Proof.
  unfold getConventionalBump, Bumper_bump, JS.Promise_resolve,
    ResultAsync.fromPromise.
  rewrite analyzeBumpLevel_spec. cbn [level reason].
  unfold severity_of, recommended_type, Major, Minor, Patch.
  destruct (existsb has_notes commits), (existsb type_is_feat commits);
    reflexivity.
Qed.

Lemma getRecommendedVersion_resolved commits context :
  getRecommendedVersion (JS.Resolved commits) context =
  Ok (semver.inc (version_current context) (recommended_type commits)).
Proof.
  unfold getRecommendedVersion. rewrite getConventionalBump_resolved.
  destruct (options_bumpStrategy context); reflexivity.
Qed.

Lemma getRecommendedVersion_rejected r context :
  getRecommendedVersion (JS.Rejected r) context =
  Err (JS.new_Error ("Failed to get conventional bump: " +:+ JS.to_string r)).
Proof.
  unfold getRecommendedVersion.
  destruct (options_bumpStrategy context); reflexivity.
Qed.

Lemma recommended_type_perm commits commits' :
  Permutation commits commits' ->
  recommended_type commits = recommended_type commits'.
Proof.
  intros HP. unfold recommended_type.
  rewrite (existsb_perm has_notes _ _ HP), (existsb_perm type_is_feat _ _ HP).
  reflexivity.
Qed.

(** X5. The level of a recommendation is never above 2, so the bumper's
    table always has a release type for it: the conventional bump of any
    commit sequence carries the level and reason of the analysis and a
    defined release type, [major], [minor] or [patch] by severity. *)
Theorem conventional_bump_has_release_type (commits : list Commit) :
  level (analyzeBumpLevel commits) <= 2
  /\ VERSIONS !! N.to_nat (level (analyzeBumpLevel commits)) =
       Some (recommended_type commits)
  /\ getConventionalBump (JS.Resolved commits) =
       Ok {| level := level (analyzeBumpLevel commits);
             reason := reason (analyzeBumpLevel commits);
             releaseType := Some (recommended_type commits) |}.
Proof.
  rewrite getConventionalBump_resolved, analyzeBumpLevel_spec.
  cbn [level reason]. split; [apply severity_of_bound|]. split; [|reflexivity].
  unfold severity_of, recommended_type, Major, Minor, Patch.
  destruct (existsb has_notes commits), (existsb type_is_feat commits);
    reflexivity.
Qed.

(** X6. When the commit source answers, the automatic pipeline returns
    what the explicit release type of the commits' severity would give:
    the increment of the current version by [major] if some commit has
    notes, else by [minor] if some commit is a [feat], else by [patch].
    The options of the context (release type, bump strategy) play no part
    in it. *)
Theorem recommended_version_is_increment
    (commits : list Commit) (context : KiaraContext) :
  getRecommendedVersion (JS.Resolved commits) context =
    getVersionFromReleaseType (version_current context)
                              (recommended_type commits)
  /\ forall releaseType bumpStrategy,
       getRecommendedVersion (JS.Resolved commits)
         (mkContext (version_current context) releaseType bumpStrategy) =
       getRecommendedVersion (JS.Resolved commits) context.
Proof.
  rewrite getVersionFromReleaseType_inc. split.
  - apply getRecommendedVersion_resolved.
  - intros releaseType bumpStrategy.
    rewrite !getRecommendedVersion_resolved. reflexivity.
Qed.

(** X7. The automatic pipeline fails exactly when the commit source
    fails, and then with a plain [Error] whose message is
    "Failed to get conventional bump: " followed by the text of what the
    source rejected with. *)
Theorem recommended_version_failure
    (source : JS.Promise (list Commit)) (context : KiaraContext) :
  (is_ok (getRecommendedVersion source context) = false <->
     exists r, source = JS.Rejected r)
  /\ forall r,
       source = JS.Rejected r ->
       getRecommendedVersion source context =
         Err {| JS.name := "Error";
                JS.message := "Failed to get conventional bump: "
                              +:+ JS.to_string r |}.
Proof.
  split.
  - destruct source as [commits|r].
    + rewrite getRecommendedVersion_resolved. cbn [is_ok]. split; [done|].
      intros [r Hr]. discriminate Hr.
    + rewrite getRecommendedVersion_rejected. cbn [is_ok]. split; [eauto|done].
  - intros r ->. apply getRecommendedVersion_rejected.
Qed.

Lemma recommended_version_failure_witness :
  getRecommendedVersion
    (JS.Rejected (JS.Thrown (JS.mkError "GitError" "not a git repository")))
    (mkContext "1.0.0" None None) =
  Err (JS.new_Error
         "Failed to get conventional bump: GitError: not a git repository").
Proof.
  exact (proj2 (recommended_version_failure
                  (JS.Rejected
                     (JS.Thrown (JS.mkError "GitError" "not a git repository")))
                  (mkContext "1.0.0" None None)) _ eq_refl).
Defined.

(** X8. The version the automatic pipeline resolves does not depend on
    the order in which the commit source returns the commits. *)
Theorem recommended_version_permutation
    (commits commits' : list Commit) (context : KiaraContext) :
  Permutation commits commits' ->
  getRecommendedVersion (JS.Resolved commits) context =
  getRecommendedVersion (JS.Resolved commits') context.
Proof.
  intros HP. rewrite !getRecommendedVersion_resolved.
  rewrite (recommended_type_perm _ _ HP). reflexivity.
Qed.

Lemma recommended_version_permutation_witness :
  getRecommendedVersion (JS.Resolved release_commits)
    (mkContext "1.0.0" None None) =
  getRecommendedVersion (JS.Resolved (rev release_commits))
    (mkContext "1.0.0" None None).
Proof.
  apply recommended_version_permutation. apply Permutation_rev.
Defined.

(** X9. With commits at hand the automatic pipeline returns [Ok null]
    exactly when the current version is not valid; for a valid current
    version it returns a plain [major.minor.patch] version. *)
Theorem recommended_version_null_iff_invalid
    (commits : list Commit) (context : KiaraContext) :
  (getRecommendedVersion (JS.Resolved commits) context = Ok None <->
     semver.valid (version_current context) = None)
  /\ (semver.valid (version_current context) <> None ->
      exists a b c,
        getRecommendedVersion (JS.Resolved commits) context =
        Ok (Some (plain_version a b c))).
Proof.
  rewrite getRecommendedVersion_resolved. split.
  - split.
    + intros [= H]. unfold semver.inc, semver.valid in *.
      destruct (semver.parse (version_current context)); done.
    + intros H. rewrite (invalid_inc _ _ H). reflexivity.
  - intros H.
    destruct (valid_inc _ H (recommended_type commits)) as [next Hnext].
    destruct (inc_plain _ _ _ Hnext) as (a & b & c & ->).
    exists a, b, c. rewrite Hnext. reflexivity.
Qed.

Lemma recommended_version_null_iff_invalid_witness :
  exists a b c,
    getRecommendedVersion (JS.Resolved release_commits)
      (mkContext "v1.4.2-rc.1" None None) = Ok (Some (plain_version a b c)).
Proof.
  apply (proj2 (recommended_version_null_iff_invalid release_commits
                  (mkContext "v1.4.2-rc.1" None None))).
  vm_compute. discriminate.
Defined.

(** X10. For a current version [MAJOR.MINOR.PATCH] of safe integers the
    version the automatic pipeline resolves is strictly greater than the
    current one, whatever the commits are. *)
Theorem recommended_version_is_greater
    (ma mi pa : N) (commits : list Commit)
    (releaseType : option ReleaseType) (bumpStrategy : option string) :
  ma <= semver.MAX_SAFE_INTEGER ->
  mi <= semver.MAX_SAFE_INTEGER ->
  pa <= semver.MAX_SAFE_INTEGER ->
  exists a b c,
    getRecommendedVersion (JS.Resolved commits)
      (mkContext (plain_version ma mi pa) releaseType bumpStrategy) =
      Ok (Some (plain_version a b c))
    /\ version_lt (ma, mi, pa) (a, b, c).
Proof.
  intros H1 H2 H3. rewrite getRecommendedVersion_resolved.
  cbn [version_current]. rewrite inc_plain_version by assumption.
  destruct (recommended_type commits); eexists _, _, _;
    (split; [reflexivity|]); unfold version_lt; lia.
Qed.

Lemma recommended_version_is_greater_witness :
  exists a b c,
    getRecommendedVersion (JS.Resolved release_commits)
      (mkContext "1.9.3" None None) = Ok (Some (plain_version a b c))
    /\ version_lt (1, 9, 3) (a, b, c).
Proof.
  apply (recommended_version_is_greater 1 9 3 release_commits None None);
    unfold semver.MAX_SAFE_INTEGER; lia.
Defined.

(** ** The manual pipeline *)

Lemma manualPrompt_request context :
  manualPrompt context =
  Return {| prompt_message := "Recommended version bump";
            prompt_type := "select";
            prompt_options := getIncrementalBumps (version_current context);
            prompt_initial := semver.inc (version_current context) patch;
            prompt_cancel := "reject" |}.
Proof. reflexivity. Qed.

Lemma candidate_value currentVersion chosen :
  In chosen (getIncrementalBumps currentVersion) ->
  exists t, value chosen = semver.inc currentVersion t.
Proof.
  unfold getIncrementalBumps, CHOICES_default, RELEASE_TYPES.
  cbn [List.map In]. intros [<-|[<-|[<-|[]]]]; eauto.
Qed.

(** X11. The two manual paths agree: an explicit release type gives,
    without consulting the prompt, the result the operator gets by picking
    the candidate of that type at the prompt, namely the increment of the
    current version by that type. *)
Theorem manual_paths_agree
    (prompt : PromptOptions -> JS.Promise (option string))
    (currentVersion : string) (releaseType : ReleaseType)
    (bumpStrategy bumpStrategy' : option string) :
  getManualVersion prompt
    (mkContext currentVersion (Some releaseType) bumpStrategy) =
    Return (Ok (semver.inc currentVersion releaseType))
  /\ getManualVersion
       (logger_prompt (Selects (bump_option currentVersion releaseType)))
       (mkContext currentVersion None bumpStrategy') =
       Return (Ok (semver.inc currentVersion releaseType)).
Proof. split; reflexivity. Qed.

(** X12. Without an explicit release type, when the operator picks one of
    the candidates offered, the manual pipeline returns that candidate's
    value, which is the increment of the current version by [patch],
    [minor] or [major]. *)
Theorem manual_selection_is_increment
    (context : KiaraContext) (chosen : VersionSelectOption) :
  options_releaseType context = None ->
  In chosen (getIncrementalBumps (version_current context)) ->
  getManualVersion (logger_prompt (Selects chosen)) context =
    Return (Ok (value chosen))
  /\ exists t,
       getManualVersion (logger_prompt (Selects chosen)) context =
       Return (getVersionFromReleaseType (version_current context) t).
Proof.
  intros Hnone Hin. unfold getManualVersion. rewrite Hnone.
  split; [reflexivity|].
  destruct (candidate_value _ _ Hin) as [t Ht]. exists t.
  rewrite getVersionFromReleaseType_inc, <- Ht. reflexivity.
Qed.

Lemma manual_selection_is_increment_witness :
  getManualVersion
    (logger_prompt (Selects (mkOption "minor (2.1.0)" (Some "2.1.0") (Some "2.1.0"))))
    (mkContext "2.0.0" None None) = Return (Ok (Some "2.1.0")).
Proof.
  apply (manual_selection_is_increment (mkContext "2.0.0" None None)
           (mkOption "minor (2.1.0)" (Some "2.1.0") (Some "2.1.0"))).
  - reflexivity.
  - right. left. reflexivity.
Defined.

(** X13. The manual pipeline never throws. It returns an error exactly
    when no explicit release type is given and the prompt rejects, and the
    error is then a plain [Error] whose message is the message of the
    [Error] the prompt rejected with, or "Failed to select version bump"
    when it rejected with something that is not an [Error]. *)
Theorem manual_version_outcome
    (prompt : PromptOptions -> JS.Promise (option string))
    (context : KiaraContext) :
  exists request result,
    manualPrompt context = Return request
    /\ getManualVersion prompt context = Return result
    /\ (is_ok result = false <->
          options_releaseType context = None
          /\ exists reason, prompt request = JS.Rejected reason)
    /\ forall e,
         result = Err e ->
         JS.name e = "Error"
         /\ exists reason,
              prompt request = JS.Rejected reason
              /\ JS.message e =
                   match reason with
                   | JS.Thrown thrown => JS.message thrown
                   | JS.Other _ => "Failed to select version bump"
                   end.
Proof.
  eexists. unfold getManualVersion, promptManualVersion.
  rewrite manualPrompt_request.
  destruct (options_releaseType context) as [t|] eqn:Et.
  - eexists. split; [reflexivity|]. split; [reflexivity|].
    cbn [ResultAsync.andTee]. rewrite getVersionFromReleaseType_inc.
    cbn [is_ok]. split; [|intros e [=]].
    split; [done|]. intros [[=] _].
  - match goal with
    | |- context [prompt ?r] => destruct (prompt r) as [v|reason] eqn:Ep
    end.
    + eexists. split; [reflexivity|]. split; [reflexivity|].
      cbn. split; [|intros e [=]].
      split; [done|]. intros [_ [reason [=]]].
    + eexists. split; [reflexivity|]. split; [reflexivity|].
      cbn. split; [split; eauto|].
      intros e [= <-]. split; [reflexivity|].
      exists reason. split; [reflexivity|]. destruct reason; reflexivity.
Qed.

Lemma manual_version_outcome_witness :
  getManualVersion (logger_prompt (Fails (JS.Other "42")))
    (mkContext "2.0.0" None None) =
  Return (Err (JS.new_Error "Failed to select version bump")).
Proof.
  destruct (manual_version_outcome (logger_prompt (Fails (JS.Other "42")))
              (mkContext "2.0.0" None None))
    as (request & result & _ & Hrun & _ & Herr).
  rewrite Hrun. vm_compute in Hrun. injection Hrun as <-. reflexivity.
Defined.

(** ** Candidates and repeated bumps *)

Section PlainVersions.

Import semver.

Lemma Number_toString_inj n m :
  JS.Number_toString n = JS.Number_toString m -> n = m.
Proof.
  intros H. pose proof (to_number_toString n) as Hn.
  rewrite H, to_number_toString in Hn. congruence.
Qed.

Lemma split_plain_version ma mi pa :
  split "." (plain_version ma mi pa) =
  [JS.Number_toString ma; JS.Number_toString mi; JS.Number_toString pa].
Proof.
  change (plain_version ma mi pa) with
    (JS.Number_toString ma +:+ String "."
       (JS.Number_toString mi +:+ String "." (JS.Number_toString pa))).
  rewrite split_first by apply digits_no_dot, Number_toString_digits.
  rewrite split_first by apply digits_no_dot, Number_toString_digits.
  rewrite split_absent by apply digits_no_dot, Number_toString_digits.
  reflexivity.
Qed.

Lemma plain_version_inj ma mi pa ma' mi' pa' :
  plain_version ma mi pa = plain_version ma' mi' pa' ->
  ma = ma' /\ mi = mi' /\ pa = pa'.
Proof.
  intros H. pose proof (split_plain_version ma mi pa) as Hs.
  rewrite H, split_plain_version in Hs.
  injection Hs as H1 H2 H3.
  repeat split; apply Number_toString_inj; congruence.
Qed.

Lemma valid_plain_version ma mi pa :
  ma <= MAX_SAFE_INTEGER -> mi <= MAX_SAFE_INTEGER ->
  pa <= MAX_SAFE_INTEGER ->
  valid (plain_version ma mi pa) = Some (plain_version ma mi pa).
Proof.
  intros H1 H2 H3. unfold valid.
  rewrite (parse_plain_version ma mi pa H1 H2 H3).
  unfold format, plain_version. cbn [prerelease sv_major sv_minor sv_patch].
  rewrite append_empty_r. reflexivity.
Qed.

End PlainVersions.

(** X14. For a current version [MAJOR.MINOR.PATCH] of safe integers the
    three candidates offered at the prompt have pairwise different
    values, and none of them is the current version. *)
Theorem candidates_distinct (ma mi pa : N) :
  ma <= semver.MAX_SAFE_INTEGER ->
  mi <= semver.MAX_SAFE_INTEGER ->
  pa <= semver.MAX_SAFE_INTEGER ->
  List.NoDup
    (Some (plain_version ma mi pa)
     :: List.map value (getIncrementalBumps (plain_version ma mi pa))).
Proof.
  intros H1 H2 H3.
  unfold getIncrementalBumps, CHOICES_default, RELEASE_TYPES, bump_option.
  cbn [List.map value]. rewrite !inc_plain_version by assumption.
  assert (Hne : forall a b c a' b' c',
             (a <> a' \/ b <> b' \/ c <> c') ->
             Some (plain_version a b c) <> Some (plain_version a' b' c')).
  { intros a b c a' b' c' Hd [= E].
    apply plain_version_inj in E as (-> & -> & ->). intuition. }
  repeat constructor; cbn [In]; intuition;
    match goal with
    | E : Some _ = Some _ |- _ => revert E; apply Hne; lia
    end.
Qed.

Lemma candidates_distinct_witness :
  List.NoDup [Some "2.0.0"; Some "2.0.1"; Some "2.1.0"; Some "3.0.0"].
Proof.
  apply (candidates_distinct 2 0 0); unfold semver.MAX_SAFE_INTEGER; lia.
Defined.

(** X15. A bumped version can be bumped again: for a current version
    [MAJOR.MINOR.PATCH] whose numbers are below the largest safe integer,
    the next version is itself a valid version, so every release type
    increments it in turn. At the largest safe integer this stops: the
    major increment of such a version is returned, but it is not a valid
    version any more. *)
Theorem bumped_version_is_valid (ma mi pa : N) (releaseType : ReleaseType) :
  ma < semver.MAX_SAFE_INTEGER ->
  mi < semver.MAX_SAFE_INTEGER ->
  pa < semver.MAX_SAFE_INTEGER ->
  (exists next,
      getVersionFromReleaseType (plain_version ma mi pa) releaseType =
        Ok (Some next)
      /\ semver.valid next = Some next
      /\ forall releaseType',
           exists next',
             getVersionFromReleaseType next releaseType' = Ok (Some next'))
  /\ getVersionFromReleaseType
       (plain_version semver.MAX_SAFE_INTEGER mi pa) major =
       Ok (Some "9007199254740992.0.0")
  /\ semver.valid "9007199254740992.0.0" = None.
Proof.
  intros H1 H2 H3. split; [|split; [|reflexivity]].
  - rewrite getVersionFromReleaseType_inc.
    rewrite inc_plain_version by lia.
    assert (Hz : 0 <= semver.MAX_SAFE_INTEGER) by lia.
    destruct releaseType; eexists; (split; [reflexivity|]);
      (split; [apply valid_plain_version; lia|]);
      intros t'; rewrite getVersionFromReleaseType_inc;
      rewrite inc_plain_version by lia; eauto.
  - rewrite getVersionFromReleaseType_inc.
    rewrite inc_plain_version by lia. reflexivity.
Qed.

Lemma bumped_version_is_valid_witness :
  exists next,
    getVersionFromReleaseType "0.9.9" minor = Ok (Some next)
    /\ semver.valid next = Some next
    /\ forall releaseType',
         exists next',
           getVersionFromReleaseType next releaseType' = Ok (Some next').
Proof.
  apply (bumped_version_is_valid 0 9 9 minor);
    unfold semver.MAX_SAFE_INTEGER; lia.
Defined.
